(** * Racing UI backend: the leaderboard ranking and the race creation handlers

    A shallow embedding of [main.py] (the handlers [get_leaderboard],
    [create_race], the helper [to_str_id], the request model [RaceCreate])
    and of the range constraint of [schemas.Race], with the properties of
    the leaderboard ordering, of the positions, of the identifier check and
    of the effects on the document store. *)

From Stdlib Require Import ZArith Lia Ascii.
From stdpp Require Import gmap strings list fin_maps pretty sorting.

Open Scope string_scope.
Open Scope Z_scope.

(** ** Python values held in documents *)

(** The values the schemas put in a document: [None], integers, strings,
    the store's [ObjectId] (held as its 24 character hexadecimal text) and
    lists of strings. *)
Inductive value : Type :=
  | VNone
  | VInt (n : Z)
  | VStr (s : string)
  | VOid (h : string)
  | VList (l : list string).

#[global] Instance value_eq_dec : EqDecision value.
Proof. solve_decision. Defined.

(** A document is a Python [dict] with string keys. *)
Abbreviation doc := (gmap string value).

(** ** Exceptions and outcomes *)

Inductive exn : Type :=
  | HTTPException (status_code : nat) (detail : string)
  | RequestValidationError
  | InvalidId
  | TypeError.

Inductive outcome (A : Type) : Type :=
  | Return (a : A)
  | Raise (e : exn).
Arguments Return {A} a.
Arguments Raise {A} e.

(** The status the HTTP layer answers with: an [HTTPException] carries its
    own, a request that fails validation is answered 422 and an exception
    nobody handles is answered 500. *)
Definition http_status {A} (o : outcome A) : nat :=
  match o with
  | Return _ => 200%nat
  | Raise (HTTPException c _) => c
  | Raise RequestValidationError => 422%nat
  | Raise InvalidId => 500%nat
  | Raise TypeError => 500%nat
  end.

Definition is_client_error (c : nat) : bool :=
  (400 <=? c)%nat && (c <? 500)%nat.

(** ** Comparison of values, as Python's [==] and [<] *)

Definition py_eq (a b : value) : bool := bool_decide (a = b).

Fixpoint strs_lt (l1 l2 : list string) : bool :=
  match l1, l2 with
  | _, [] => false
  | [], _ :: _ => true
  | x :: l1', y :: l2' =>
      if String.eqb x y then strs_lt l1' l2' else String.ltb x y
  end.

(** [a < b]: defined between two values of one type, [TypeError] between
    [None] and anything and between values of different types. *)
Definition py_lt (a b : value) : outcome bool :=
  match a, b with
  | VInt x, VInt y => Return (x <? y)%Z
  | VStr x, VStr y => Return (String.ltb x y)
  | VOid x, VOid y => Return (String.ltb x y)
  | VList x, VList y => Return (strs_lt x y)
  | _, _ => Raise TypeError
  end.

(** The sort key is a pair; pairs compare as Python tuples do: the first
    component on which they differ (by [==]) decides, by [<]. *)
Definition tuple_lt (k1 k2 : value * value) : outcome bool :=
  if py_eq k1.1 k2.1 then
    if py_eq k1.2 k2.2 then Return false else py_lt k1.2 k2.2
  else py_lt k1.1 k2.1.

(** [str(v)], used on the [_id] of a document. It is Python's text for
    [None], an integer, a string and an identifier. For a list it is
    Python's text only when no string of the list holds a quote, a
    backslash or a character that Python escapes; the store accepts no
    list as [_id]. *)
Definition py_str (v : value) : string :=
  match v with
  | VNone => "None"
  | VInt n => pretty n
  | VStr s => s
  | VOid h => h
  | VList l => "[" +:+ String.concat ", " ((fun s => "'" +:+ s +:+ "'") <$> l) +:+ "]"
  end.

(** [d.get(k, default)] *)
Definition dict_get (d : doc) (k : string) (default : value) : value :=
  match d !! k with
  | Some v => v
  | None => default
  end.

(** ** [list.sort(key=...)]

    Python's sort is stable and is driven by [<] on the keys; an exception
    raised by a comparison ends the sort. It is embedded as the stable
    insertion sort below: when the keys are comparable with one another,
    every stable sort returns the same list. On two elements it makes the
    one comparison Python makes, [key(l[1]) < key(l[0])]. *)
Section list_sort.
Context {A K : Type} (key : A → K) (lt : K → K → outcome bool).

Fixpoint sort_insert (x : A) (l : list A) : outcome (list A) :=
  match l with
  | [] => Return [x]
  | y :: l' =>
      match lt (key y) (key x) with
      | Raise e => Raise e
      | Return true =>
          match sort_insert x l' with
          | Return r => Return (y :: r)
          | Raise e => Raise e
          end
      | Return false => Return (x :: y :: l')
      end
  end.

Fixpoint list_sort (l : list A) : outcome (list A) :=
  match l with
  | [] => Return []
  | x :: l' =>
      match list_sort l' with
      | Return r => sort_insert x r
      | Raise e => Raise e
      end
  end.
End list_sort.

(** ** The document store

    Modelled from the spec: the document store adapter ([database.py] and
    the store client behind it) is not among the sources; the spec gives it
    [insert_one] and [find(filter)] over named collections. A collection is
    the list of its documents in retrieval order; [find] returns those that
    carry every field of the filter with an equal value, as fresh
    dictionaries; [insert_one] gives the document a new [_id] when it has
    none and appends it. *)
Abbreviation database := (gmap string (list doc)).

Inductive store_op : Type :=
  | OpFind (coll : string) (flt : doc)
  | OpInsertOne (coll : string) (d : doc).

(** [db] is the module level handle ([None] when the store is not
    configured), [issued] counts the identifiers generated so far and
    [trace] records every access to the store, oldest first. *)
Record world : Type := World {
  db : option database;
  issued : nat;
  trace : list store_op
}.

Definition collection (s : database) (name : string) : list doc :=
  default [] (s !! name).

Definition doc_matches (flt d : doc) : bool :=
  bool_decide (map_Forall (λ k v, d !! k = Some v) flt).

Definition store_find (s : database) (name : string) (flt : doc) : list doc :=
  filter (λ d, doc_matches flt d = true) (collection s name).

(** A handler runs in the world and either returns or raises. *)
Definition handler (A : Type) : Type := world → outcome A * world.

#[global] Instance handler_ret : MRet handler :=
  λ A (a : A) w, (Return a, w).
#[global] Instance handler_bind : MBind handler :=
  λ A B (f : A → handler B) (m : handler A) w,
    match m w with
    | (Return a, w') => f a w'
    | (Raise e, w') => (Raise e, w')
    end.

Definition raise {A} (e : exn) : handler A := λ w, (Raise e, w).
Definition lift {A} (o : outcome A) : handler A := λ w, (o, w).

(** [try: x = o  except Exception: raise e] *)
Definition try_except {A} (o : outcome A) (e : exn) : handler A :=
  λ w, match o with
       | Return a => (Return a, w)
       | Raise _ => (Raise e, w)
       end.

(** [if db is None: raise HTTPException(500, "Database not configured")] *)
Definition require_db : handler database :=
  λ w, match db w with
       | Some s => (Return s, w)
       | None => (Raise (HTTPException 500 "Database not configured"), w)
       end.

(** [db[name].find(flt)], read into a list. *)
Definition find (name : string) (flt : doc) : handler (list doc) :=
  λ w, match db w with
       | Some s =>
           (Return (store_find s name flt),
            World (db w) (issued w) (trace w ++ [OpFind name flt])%list)
       | None => (Raise TypeError, w)
       end.

(** ** JSON request bodies *)
#[warnings="-register-all"]
Inductive json : Type :=
  | JNull
  | JBool (b : bool)
  | JInt (n : Z)
  | JStr (s : string)
  | JArr (l : list json).

Section handlers.
(** The store's identifier type comes from its driver: [ObjectId_ok s]
    tells whether [ObjectId(s)] accepts the string [s], and
    [ObjectId_new n] is the text of the [n]-th identifier generated. *)
Context (ObjectId_ok : string → bool) (ObjectId_new : nat → string).

(** [ObjectId(s)] for a string [s]: the identifier, or [InvalidId]. *)
Definition ObjectId (s : string) : outcome value :=
  if ObjectId_ok s then Return (VOid s) else Raise InvalidId.

(** [db[name].insert_one(d).inserted_id] *)
Definition insert_one (name : string) (d : doc) : handler value :=
  λ w, match db w with
       | Some s =>
           let '(d', n') :=
             match d !! "_id" with
             | Some _ => (d, issued w)
             | None => (<["_id" := VOid (ObjectId_new (issued w))]> d, S (issued w))
             end in
           (Return (dict_get d' "_id" VNone),
            World (Some (<[name := (collection s name ++ [d'])%list]> s)) n'
                  (trace w ++ [OpInsertOne name d'])%list)
       | None => (Raise TypeError, w)
       end.

(** ** [to_str_id] *)
Definition to_str_id (d : doc) : doc :=
  if bool_decide (d ≠ ∅) then
    match d !! "_id" with
    | Some v => <["id" := VStr (py_str v)]> (delete "_id" d)
    | None => d
    end
  else d.

(** ** [get_leaderboard] *)

(** The placeholder [1e12] of the sort key. Python compares an integer
    with a float by value, so the integer stands for it in the key. *)
Definition MISSING : value := VInt 1000000000000.

(** [lambda e: (e.get("total_time_ms", 1e12), e.get("best_lap_ms", 1e12))] *)
Definition sort_key (e : doc) : value * value :=
  (dict_get e "total_time_ms" MISSING, dict_get e "best_lap_ms" MISSING).

(** [for idx, e in enumerate(entries, start): e["position"] = idx] *)
Fixpoint assign_positions (start : Z) (entries : list doc) : list doc :=
  match entries with
  | [] => []
  | e :: rest =>
      <["position" := VInt start]> e :: assign_positions (start + 1) rest
  end.

Definition get_leaderboard (race_id : string) : handler (list doc) :=
  require_db ;;
  oid ← try_except (ObjectId race_id) (HTTPException 400 "Invalid race id") ;
  entries ← find "entry" {[ "race_id" := VStr race_id ]} ;
  entries ← lift (list_sort sort_key tuple_lt entries) ;
  mret (to_str_id <$> assign_positions 1 entries).

(** ** [RaceCreate] and [create_race] *)

(** The model instance handed to the handler:
    [map_code: str], [laps: int], [allowed_vehicle_codes: List[str] = []],
    [created_by: Optional[str] = None]. *)
Record RaceCreate : Type := {
  map_code : string;
  laps : Z;
  allowed_vehicle_codes : list string;
  created_by : option string
}.

Definition json_str (j : json) : option string :=
  match j with JStr s => Some s | _ => None end.

Definition json_int (j : json) : option Z :=
  match j with JInt n => Some n | _ => None end.

(** Validation of a request body against [RaceCreate]: the two required
    fields with their types, the two optional ones with their defaults,
    any other field of the body ignored. The only constraint on [laps]
    is its type. The validator also coerces some values that are not of
    the declared type ([laps] given as a numeral in a string or as a
    boolean); these coercions are left out, so a body accepted here is
    accepted by the validator, with the same instance, and a body refused
    here for [laps] in a string or a boolean may be accepted by it. *)
Definition RaceCreate_validate (b : gmap string json) : outcome RaceCreate :=
  let fields :=
    m ← b !! "map_code" ≫= json_str ;
    n ← b !! "laps" ≫= json_int ;
    a ← match b !! "allowed_vehicle_codes" with
        | None => Some []
        | Some (JArr l) => mapM json_str l
        | Some _ => None
        end ;
    c ← match b !! "created_by" with
        | None | Some JNull => Some None
        | Some (JStr s) => Some (Some s)
        | Some _ => None
        end ;
    Some {| map_code := m; laps := n;
            allowed_vehicle_codes := a; created_by := c |} in
  match fields with
  | Some payload => Return payload
  | None => Raise RequestValidationError
  end.

(** [payload.model_dump()] *)
Definition model_dump (payload : RaceCreate) : doc :=
  <["map_code" := VStr (map_code payload)]>
  (<["laps" := VInt (laps payload)]>
  (<["allowed_vehicle_codes" := VList (allowed_vehicle_codes payload)]>
  (<["created_by" := from_option VStr VNone (created_by payload)]> ∅))).

Definition create_race (payload : RaceCreate) : handler doc :=
  require_db ;;
  let race_doc := model_dump payload in
  let race_doc := <["status" := VStr "pending"]> race_doc in
  race_id ← insert_one "race" race_doc ;
  mret {[ "id" := VStr (py_str race_id) ]}.

(** [POST /races]: the body is validated, then the handler runs. *)
Definition post_races (b : gmap string json) : handler doc :=
  payload ← lift (RaceCreate_validate b) ;
  create_race payload.

End handlers.

(** ** [schemas.Race]: [laps: int = Field(..., ge=1, le=100)] *)
Definition Race_laps_ok (n : Z) : bool := (1 <=? n)%Z && (n <=? 100)%Z.

(** ** [list_races]

    Modelled from the spec: the cursor operations [sort] and [limit] of the
    document store adapter are not among the sources. [sort(field, -1)]
    gives the documents in descending order of the field, [sort(field, 1)]
    in ascending order, by the store's order of values: a missing field and
    [None] first, then integers, then strings, then lists, then
    identifiers, two values of one kind by their own order. (The store
    accepts no list as [_id].) [limit(n)] keeps the first [n]. *)
Definition bson_rank (o : option value) : nat :=
  match o with
  | None | Some VNone => 0
  | Some (VInt _) => 1
  | Some (VStr _) => 2
  | Some (VList _) => 3
  | Some (VOid _) => 4
  end.

Definition bson_ltb (a b : option value) : bool :=
  match a, b with
  | Some (VInt x), Some (VInt y) => (x <? y)%Z
  | Some (VStr x), Some (VStr y) => String.ltb x y
  | Some (VList x), Some (VList y) => strs_lt x y
  | Some (VOid x), Some (VOid y) => String.ltb x y
  | _, _ => (bson_rank a <? bson_rank b)%nat
  end.

(** [d1] may come before [d2] under [sort(field, direction)]. *)
Definition cursor_before (field : string) (direction : Z) (d1 d2 : doc) : Prop :=
  if (direction <? 0)%Z
  then bson_ltb (d1 !! field) (d2 !! field) = false
  else bson_ltb (d2 !! field) (d1 !! field) = false.

#[global] Instance cursor_before_dec field direction d1 d2 :
  Decision (cursor_before field direction d1 d2).
Proof. unfold cursor_before. destruct (direction <? 0)%Z; apply _. Defined.

Definition cursor_sort (field : string) (direction : Z) (l : list doc) : list doc :=
  merge_sort (cursor_before field direction) l.

(** [db[name].find(flt).sort(field, direction).limit(n)], read into a
    list. *)
Definition find_sort_limit (name : string) (flt : doc)
    (field : string) (direction : Z) (n : nat) : handler (list doc) :=
  λ w, match db w with
       | Some s =>
           (Return (take n (cursor_sort field direction (store_find s name flt))),
            World (db w) (issued w) (trace w ++ [OpFind name flt])%list)
       | None => (Raise TypeError, w)
       end.

Definition list_races : handler (list doc) :=
  require_db ;;
  races ← find_sort_limit "race" ∅ "_id" (-1) 50 ;
  mret (to_str_id <$> races).

(** ** An identifier format for the examples

    Twenty-four hexadecimal digits, the text form of the store's
    identifiers; the generator numbers them from zero. It stands for the
    driver's own test in the examples only, at strings on which the two
    agree (the driver also accepts some strings of 24 characters that hold
    white space); the theorems take the test as a parameter. *)
Definition is_hex (c : ascii) : bool :=
  let n := nat_of_ascii c in
  ((48 <=? n) && (n <=? 57) || (65 <=? n) && (n <=? 70)
   || (97 <=? n) && (n <=? 102))%nat.

Definition hex24_ok (s : string) : bool :=
  (String.length s =? 24)%nat && forallb is_hex (String.list_ascii_of_string s).

Definition hex_digit (n : N) : ascii :=
  if (n <? 10)%N then ascii_of_N (48 + n) else ascii_of_N (87 + n).

Fixpoint hex_text (digits : nat) (n : N) (acc : string) : string :=
  match digits with
  | O => acc
  | S d => hex_text d (n / 16)%N (String (hex_digit (n mod 16)%N) acc)
  end.

Definition hex24_new (n : nat) : string := hex_text 24 (N.of_nat n) "".

(** ** Definitions used in the statements *)

Definition outcome_map {A B} (f : A → B) (o : outcome A) : outcome B :=
  match o with
  | Return a => Return (f a)
  | Raise e => Raise e
  end.

(** The document sent for a stored entry [e] ranked at position [p]. *)
Definition shown (p : Z) (e : doc) : doc :=
  to_str_id (<["position" := VInt p]> e).

(** *** The order of the ranking *)

(** A time field that is absent or holds an integer. *)
Definition is_time (o : option value) : bool :=
  match o with
  | None | Some (VInt _) => true
  | Some _ => false
  end.

Definition timed (e : doc) : bool :=
  is_time (e !! "total_time_ms") && is_time (e !! "best_lap_ms").

(** The time a field counts for in the ranking: its integer, the
    placeholder when it is absent. *)
Definition time_of (e : doc) (k : string) : Z :=
  match e !! k with
  | Some (VInt t) => t
  | _ => 1000000000000
  end.

Definition ranks_le (e1 e2 : doc) : Prop :=
  time_of e1 "total_time_ms" < time_of e2 "total_time_ms"
  ∨ (time_of e1 "total_time_ms" = time_of e2 "total_time_ms"
     ∧ time_of e1 "best_lap_ms" ≤ time_of e2 "best_lap_ms").

(** The order of the specification, an absent time after every recorded
    one: [a] strictly before [b], and the composite order built on it. *)
Definition absent_last_lt (a b : option value) : Prop :=
  match a, b with
  | Some (VInt x), Some (VInt y) => x < y
  | Some (VInt _), None => True
  | _, _ => False
  end.

Definition ranks_le_absent_last (e1 e2 : doc) : Prop :=
  absent_last_lt (e1 !! "total_time_ms") (e2 !! "total_time_ms")
  ∨ (e1 !! "total_time_ms" = e2 !! "total_time_ms"
     ∧ (absent_last_lt (e1 !! "best_lap_ms") (e2 !! "best_lap_ms")
        ∨ e1 !! "best_lap_ms" = e2 !! "best_lap_ms")).

(** *** Stores used in the examples *)

(** A stored entry: [_id], [race_id], [player_name] and the time fields
    that are recorded. *)
Definition entry_doc (oid race_id player : string) (total best : option Z) : doc :=
  let d : doc := {[ "_id" := VOid oid; "race_id" := VStr race_id;
                    "player_name" := VStr player ]} in
  let d := from_option (λ t, <["total_time_ms" := VInt t]> d) d total in
  from_option (λ t, <["best_lap_ms" := VInt t]> d) d best.

Definition race0 : string := "0123456789abcdef01234567".
Definition race1 : string := "89abcdef0123456701234567".

Definition entry_A : doc := entry_doc "aaaaaaaaaaaaaaaaaaaaaaaa" race0 "A" (Some 120000) (Some 30000).
Definition entry_B : doc := entry_doc "bbbbbbbbbbbbbbbbbbbbbbbb" race0 "B" None (Some 29000).
Definition entry_C : doc := entry_doc "cccccccccccccccccccccccc" race0 "C" (Some 120000) (Some 29500).
Definition entry_D : doc := entry_doc "dddddddddddddddddddddddd" race0 "D" None None.
Definition entry_X : doc := entry_doc "eeeeeeeeeeeeeeeeeeeeeeee" race1 "X" (Some 100) (Some 10).

(** The scenario of the specification, with an entry of another race. *)
Definition store_scenario : database :=
  {[ "entry" := [entry_A; entry_B; entry_X; entry_C; entry_D] ]}.

(** A recorded time above the placeholder, and an entry without time. *)
Definition entry_slow : doc :=
  entry_doc "111111111111111111111111" race0 "S" (Some 2000000000000) (Some 30000).

Definition store_slow : database := {[ "entry" := [entry_slow; entry_D] ]}.

(** An entry whose [race_id] is no identifier. *)
Definition entry_stray : doc :=
  entry_doc "222222222222222222222222" "final" "Z" (Some 5) (Some 1).

Definition store_stray : database := {[ "entry" := [entry_stray; entry_A] ]}.

(** An entry whose total_time_ms is stored as [None]. *)
Definition entry_null : doc := <["total_time_ms" := VNone]> entry_B.

Definition store_null : database := {[ "entry" := [entry_A; entry_null] ]}.

(** Two entries with the same times, stored in the two orders. *)
Definition entry_T1 : doc := entry_doc "333333333333333333333333" race0 "T1" (Some 60000) (Some 20000).
Definition entry_T2 : doc := entry_doc "444444444444444444444444" race0 "T2" (Some 60000) (Some 20000).

Definition store_tied : database := {[ "entry" := [entry_T1; entry_A; entry_T2] ]}.
Definition store_tied_rev : database := {[ "entry" := [entry_T2; entry_A; entry_T1] ]}.

Definition world_of (s : database) : world := World (Some s) 0 [].
Definition world_unconfigured : world := World None 0 [].

(** Request bodies for [POST /races]: the required fields only, and a
    body that also carries the optional fields and a status. *)
Definition body_laps (n : Z) : gmap string json :=
  {[ "map_code" := JStr "downtown_dash"; "laps" := JInt n ]}.

Definition body_with_status : gmap string json :=
  {[ "map_code" := JStr "vinewood_loop"; "laps" := JInt 3;
     "allowed_vehicle_codes" := JArr [JStr "zentorno"; JStr "elegy"];
     "created_by" := JStr "Flames"; "status" := JStr "finished" ]}.

(** The document [create_race] hands to the store, with the [_id] the
    store gives it. *)
Definition race_document (oid : string) (payload : RaceCreate) : doc :=
  <["_id" := VOid oid]> (<["status" := VStr "pending"]> (model_dump payload)).

(** A stored race, and a store of [n] races numbered from zero. *)
Definition race_doc_numbered (n : nat) : doc :=
  {[ "_id" := VOid (hex24_new n); "map_code" := VStr "downtown_dash";
     "laps" := VInt 3; "allowed_vehicle_codes" := VList [];
     "created_by" := VNone; "status" := VStr "pending" ]}.

Definition store_races (n : nat) : database :=
  {[ "race" := race_doc_numbered <$> seq 0 n; "entry" := [entry_A; entry_B] ]}.

(** The scenario with a position already stored in every entry. *)
Definition store_scenario_positions : database :=
  {[ "entry" := (λ e : doc, <["position" := VInt 9]> e)
                <$> [entry_A; entry_B; entry_X; entry_C; entry_D] ]}.

(** An entry without total_time_ms and one recorded at exactly the
    placeholder, stored in the two orders. *)
Definition entry_P : doc :=
  entry_doc "555555555555555555555555" race0 "P" (Some 1000000000000) None.

Definition store_placeholder : database := {[ "entry" := [entry_D; entry_P] ]}.
Definition store_placeholder_rev : database := {[ "entry" := [entry_P; entry_D] ]}.

(** ** Facts about the sort *)

Section list_sort_facts.
Context {A K : Type} (key : A → K) (lt : K → K → outcome bool).

Lemma sort_insert_perm (x : A) (l r : list A) :
  sort_insert key lt x l = Return r → r ≡ₚ x :: l.
Proof.
  revert r. induction l as [|y l IH]; intros r; simpl.
  - intros [= <-]. done.
  - destruct (lt (key y) (key x)) as [[|]|]; try discriminate.
    + destruct (sort_insert key lt x l) as [r'|] eqn:Hr; try discriminate.
      intros [= <-]. rewrite (IH r' eq_refl). apply Permutation_swap.
    + intros [= <-]. done.
Qed.

Lemma list_sort_perm (l r : list A) :
  list_sort key lt l = Return r → r ≡ₚ l.
Proof.
  revert r. induction l as [|x l IH]; intros r; simpl.
  - intros [= <-]. done.
  - destruct (list_sort key lt l) as [r'|] eqn:Hr; try discriminate.
    intros Hi. apply sort_insert_perm in Hi. by rewrite Hi, (IH r' eq_refl).
Qed.

(** Stability: the elements of a class [P] no two members of which
    compare as strictly smaller keep their order. *)
Section stable.
Context (P : A → Prop) `{!∀ x, Decision (P x)}.
Hypothesis P_tied : ∀ x y, P x → P y → lt (key y) (key x) ≠ Return true.


End stable.

(** Sortedness: when [lt] decides a transitive order [le] on the
    elements satisfying [Q], the sort of such elements returns, and
    returns them in that order. *)
Section sorted.
Context (le : A → A → Prop) (Q : A → Prop).
Hypothesis le_trans : ∀ x y z, le x y → le y z → le x z.
Hypothesis lt_decides : ∀ x y, Q x → Q y →
  ∃ b, lt (key y) (key x) = Return b ∧ if b then le y x else le x y.

Lemma sort_insert_sorted (x : A) (l : list A) :
  Q x → Forall Q l → StronglySorted le l →
  ∃ r, sort_insert key lt x l = Return r ∧ StronglySorted le r.
Proof using le_trans lt_decides.
  intros Hx. induction l as [|y l IH]; intros HQ Hs; simpl.
  - eexists; split; [done|]. repeat constructor.
  - apply Forall_cons in HQ as [Hy HQ].
    apply StronglySorted_inv in Hs as [Hs Hyl].
    destruct (lt_decides x y Hx Hy) as (b & -> & Hb). destruct b.
    + destruct (IH HQ Hs) as (r & Hr & Hsr). rewrite Hr.
      eexists; split; [done|]. constructor; [done|].
      apply sort_insert_perm in Hr. rewrite Hr. by constructor.
    + eexists; split; [done|]. constructor.
      * by constructor.
      * constructor; [done|]. eapply Forall_impl; [exact Hyl|].
        intros z Hz. by eapply le_trans.
Qed.

Lemma list_sort_sorted (l : list A) :
  Forall Q l →
  ∃ r, list_sort key lt l = Return r ∧ StronglySorted le r.
Proof using le_trans lt_decides.
  induction l as [|x l IH]; intros HQ; simpl.
  - eexists; split; [done|]. constructor.
  - apply Forall_cons in HQ as [Hx HQ].
    destruct (IH HQ) as (r & Hr & Hs). rewrite Hr.
    apply sort_insert_sorted; [done| |done].
    apply list_sort_perm in Hr. by rewrite Hr.
Qed.
End sorted.
End list_sort_facts.

(** The order of the result depends on the elements through their keys
    only. *)
Lemma sort_insert_fmap {A B K} (keyA : A → K) (keyB : B → K)
    (lt : K → K → outcome bool) (f : A → B) (x : A) (l : list A) :
  (∀ a, keyB (f a) = keyA a) →
  sort_insert keyB lt (f x) (f <$> l)
  = outcome_map (fmap f) (sort_insert keyA lt x l).
Proof.
  intros Hk. induction l as [|y l IH]; csimpl; [done|].
  rewrite !Hk. destruct (lt (keyA y) (keyA x)) as [[|]|]; try done.
  rewrite IH. by destruct (sort_insert keyA lt x l).
Qed.

Lemma list_sort_fmap {A B K} (keyA : A → K) (keyB : B → K)
    (lt : K → K → outcome bool) (f : A → B) (l : list A) :
  (∀ a, keyB (f a) = keyA a) →
  list_sort keyB lt (f <$> l) = outcome_map (fmap f) (list_sort keyA lt l).
Proof.
  intros Hk. induction l as [|x l IH]; csimpl; [done|].
  rewrite IH. destruct (list_sort keyA lt l) as [r|]; csimpl; [|done].
  by apply sort_insert_fmap.
Qed.

(** ** Facts about documents *)

Lemma shown_lookup (p : Z) (e : doc) (k : string) :
  k ≠ "position" → k ≠ "id" → k ≠ "_id" → shown p e !! k = e !! k.
Proof.
  intros H1 H2 H3. unfold shown, to_str_id.
  case_bool_decide; [destruct (_ !! "_id")|];
    rewrite ?(lookup_insert_ne _ "id"), ?lookup_delete_ne,
      ?(lookup_insert_ne _ "position") by done; done.
Qed.

Lemma shown_position (p : Z) (e : doc) :
  shown p e !! "position" = Some (VInt p).
Proof.
  unfold shown, to_str_id.
  case_bool_decide; [destruct (_ !! "_id")|];
    rewrite ?(lookup_insert_ne _ "id"), ?lookup_delete_ne by done;
    apply lookup_insert_eq.
Qed.

Lemma assign_positions_shown (start : Z) (l : list doc) :
  to_str_id <$> assign_positions start l
  = imap (λ i, shown (start + Z.of_nat i)) l.
Proof.
  revert start. induction l as [|e l IH]; intros start; csimpl; [done|].
  rewrite IH. f_equal.
  - unfold shown. do 3 f_equal. lia.
  - apply imap_ext. intros i x _. simpl. f_equal. lia.
Qed.

Lemma doc_matches_race_id (rid : string) (d : doc) :
  doc_matches {[ "race_id" := VStr rid ]} d = true
  ↔ d !! "race_id" = Some (VStr rid).
Proof.
  unfold doc_matches. rewrite bool_decide_eq_true.
  by rewrite map_Forall_singleton.
Qed.

Lemma store_find_race_id (s : database) (rid : string) :
  store_find s "entry" {[ "race_id" := VStr rid ]}
  = filter (λ e, e !! "race_id" = Some (VStr rid)) (collection s "entry").
Proof.
  unfold store_find. apply list_filter_iff. intros e.
  apply doc_matches_race_id.
Qed.

(** ** Facts about the order of the ranking *)

Lemma ranks_le_trans (x y z : doc) : ranks_le x y → ranks_le y z → ranks_le x z.
Proof. unfold ranks_le. lia. Qed.

Lemma timed_sort_key (e : doc) :
  timed e = true →
  sort_key e = (VInt (time_of e "total_time_ms"), VInt (time_of e "best_lap_ms")).
Proof.
  unfold timed, sort_key, dict_get, time_of, MISSING. intros H.
  apply andb_prop in H as [H1 H2].
  destruct (e !! "total_time_ms") as [[]|], (e !! "best_lap_ms") as [[]|];
    done.
Qed.

Lemma tuple_lt_timed (x y : doc) :
  timed x = true → timed y = true →
  ∃ b, tuple_lt (sort_key y) (sort_key x) = Return b
       ∧ if b then ranks_le y x else ranks_le x y.
Proof.
  intros Hx Hy. rewrite (timed_sort_key x Hx), (timed_sort_key y Hy).
  unfold tuple_lt, py_eq, ranks_le. simpl.
  generalize (time_of x "total_time_ms") (time_of x "best_lap_ms")
    (time_of y "total_time_ms") (time_of y "best_lap_ms").
  intros a b c d.
  repeat case_bool_decide; simplify_eq; simpl; eexists; (split; [done|]).
  - simpl. lia.
  - assert (d ≠ b) by congruence. destruct (Z.ltb_spec d b); lia.
  - assert (c ≠ a) by congruence. destruct (Z.ltb_spec c a); lia.
Qed.


Lemma StronglySorted_lookup_lt {A} (R : A → A → Prop) (l : list A)
    (i j : nat) (x y : A) :
  StronglySorted R l → l !! i = Some x → l !! j = Some y → (i < j)%nat → R x y.
Proof.
  intros Hs. revert i j. induction Hs as [|a l Hs IH Ha]; intros i j Hi Hj Hij.
  - done.
  - destruct j as [|j]; [lia|]. destruct i as [|i]; simpl in *.
    + simplify_eq. rewrite Forall_forall in Ha. apply Ha.
      by eapply list_elem_of_lookup_2.
    + eapply IH; [done..|lia].
Qed.

Lemma StronglySorted_imap {A B} (R : A → A → Prop) (R' : B → B → Prop)
    (f : nat → A → B) (l : list A) :
  (∀ i j x y, R x y → R' (f i x) (f j y)) →
  StronglySorted R l → StronglySorted R' (imap f l).
Proof.
  intros HR Hs. revert f HR.
  induction Hs as [|a l Hs IH Ha]; intros f HR; simpl; constructor.
  - apply IH. intros i j x y. apply HR.
  - rewrite Forall_forall in Ha. apply Forall_forall. intros b Hb.
    apply elem_of_lookup_imap in Hb as (i & x & -> & Hx).
    apply HR, Ha. by eapply list_elem_of_lookup_2.
Qed.

Lemma time_of_shown (p : Z) (e : doc) (k : string) :
  k ≠ "position" → k ≠ "id" → k ≠ "_id" → time_of (shown p e) k = time_of e k.
Proof. intros. unfold time_of. by rewrite shown_lookup. Qed.

Lemma ranks_le_shown (p q : Z) (x y : doc) :
  ranks_le x y → ranks_le (shown p x) (shown q y).
Proof. unfold ranks_le. by rewrite !time_of_shown. Qed.

(** ** The runs of [get_leaderboard] *)

Section leaderboard.
Context (ObjectId_ok : string → bool).

Lemma get_leaderboard_unconfigured (w : world) (race_id : string) :
  db w = None →
  get_leaderboard ObjectId_ok race_id w
  = (Raise (HTTPException 500 "Database not configured"), w).
Proof.
  intros Hdb. unfold get_leaderboard, mbind, handler_bind, require_db.
  by rewrite Hdb.
Qed.

Lemma get_leaderboard_invalid (w : world) (s : database) (race_id : string) :
  db w = Some s → ObjectId_ok race_id = false →
  get_leaderboard ObjectId_ok race_id w = (Raise (HTTPException 400 "Invalid race id"), w).
Proof.
  intros Hdb Hok.
  unfold get_leaderboard, mbind, handler_bind, require_db, try_except, ObjectId.
  by rewrite Hdb, Hok.
Qed.

Lemma get_leaderboard_valid (w : world) (s : database) (race_id : string) :
  db w = Some s → ObjectId_ok race_id = true →
  get_leaderboard ObjectId_ok race_id w
  = (outcome_map (λ r, to_str_id <$> assign_positions 1 r)
       (list_sort sort_key tuple_lt
          (store_find s "entry" {[ "race_id" := VStr race_id ]})),
     World (Some s) (issued w)
       (trace w ++ [OpFind "entry" {[ "race_id" := VStr race_id ]}])).
Proof.
  intros Hdb Hok.
  unfold get_leaderboard, mbind, handler_bind, require_db, try_except,
    ObjectId, find, lift, mret, handler_ret.
  rewrite Hdb, Hok. simpl. rewrite Hdb.
  by destruct (list_sort _ _ _).
Qed.

(** A call that returns was made with the store configured and a
    well-formed identifier, and returns the sorted entries, shown. *)
Lemma get_leaderboard_returns (w : world) (race_id : string) (out : list doc) :
  (get_leaderboard ObjectId_ok race_id w).1 = Return out →
  ∃ s ranked,
    db w = Some s ∧ ObjectId_ok race_id = true
    ∧ list_sort sort_key tuple_lt
        (store_find s "entry" {[ "race_id" := VStr race_id ]}) = Return ranked
    ∧ out = to_str_id <$> assign_positions 1 ranked.
Proof.
  destruct (db w) as [s|] eqn:Hdb.
  - destruct (ObjectId_ok race_id) eqn:Hok.
    + rewrite (get_leaderboard_valid w s race_id Hdb Hok). simpl.
      destruct (list_sort _ _ _) as [r|] eqn:Hr; simpl; [|done].
      intros [= <-]. by exists s, r.
    + by rewrite (get_leaderboard_invalid w s race_id Hdb Hok).
  - by rewrite (get_leaderboard_unconfigured w race_id Hdb).
Qed.

(** With the store configured, a well-formed identifier and time fields
    that are absent or integers, the call returns. *)
Lemma get_leaderboard_timed (w : world) (s : database) (race_id : string) :
  db w = Some s → ObjectId_ok race_id = true →
  forallb timed (store_find s "entry" {[ "race_id" := VStr race_id ]}) = true →
  ∃ ranked,
    list_sort sort_key tuple_lt
      (store_find s "entry" {[ "race_id" := VStr race_id ]}) = Return ranked
    ∧ StronglySorted ranks_le ranked
    ∧ (get_leaderboard ObjectId_ok race_id w).1
      = Return (to_str_id <$> assign_positions 1 ranked).
Proof.
  intros Hdb Hok Ht.
  destruct (list_sort_sorted sort_key tuple_lt ranks_le (λ e, timed e = true)
              ranks_le_trans tuple_lt_timed
              (store_find s "entry" {[ "race_id" := VStr race_id ]}))
    as (r & Hr & Hs).
  { apply Forall_forall. intros e He.
    rewrite forallb_forall in Ht. apply Ht. by apply list_elem_of_In. }
  exists r. split_and!; [done..|].
  by rewrite (get_leaderboard_valid w s race_id Hdb Hok), Hr.
Qed.

End leaderboard.

(** ** The ranking *)

(** C1, as amended: with the store configured, a well-formed identifier
    and retrieved entries whose two time fields are each absent or an
    integer, the call returns, and the sequence returned is sorted
    non-decreasing by (total_time_ms, best_lap_ms) with an absent field
    counted as 10^12; so an entry without total_time_ms comes after every
    entry with a total_time_ms below 10^12, and of two entries without
    total_time_ms one with a best_lap_ms below 10^12 comes before one
    without best_lap_ms. *)
Theorem leaderboard_sorted_by_times (ObjectId_ok : string → bool)
    (w : world) (s : database) (race_id : string) :
  db w = Some s → ObjectId_ok race_id = true →
  forallb timed (store_find s "entry" {[ "race_id" := VStr race_id ]}) = true →
  ∃ out,
    (get_leaderboard ObjectId_ok race_id w).1 = Return out
    ∧ StronglySorted ranks_le out
    ∧ (∀ i j oi oj t,
         out !! i = Some oi → out !! j = Some oj →
         oi !! "total_time_ms" = None →
         oj !! "total_time_ms" = Some (VInt t) → t < 1000000000000 →
         (j < i)%nat)
    ∧ (∀ i j oi oj b,
         out !! i = Some oi → out !! j = Some oj →
         oi !! "total_time_ms" = None → oj !! "total_time_ms" = None →
         oi !! "best_lap_ms" = Some (VInt b) → b < 1000000000000 →
         oj !! "best_lap_ms" = None →
         (i < j)%nat).
Proof.
  intros Hdb Hok Ht.
  destruct (get_leaderboard_timed ObjectId_ok w s race_id Hdb Hok Ht)
    as (r & _ & Hs & Hout).
  eexists. split; [exact Hout|].
  assert (StronglySorted ranks_le (to_str_id <$> assign_positions 1 r)) as Hso.
  { rewrite assign_positions_shown.
    apply (StronglySorted_imap ranks_le); [|done].
    intros i j x y. apply ranks_le_shown. }
  split; [done|]. split.
  - intros i j oi oj t Hi Hj Hti Htj Hlt.
    destruct (decide (j < i)%nat) as [|Hge]; [done|exfalso].
    destruct (decide (i = j)) as [->|Hne]; [congruence|].
    assert (ranks_le oi oj) as Hle
      by (eapply (StronglySorted_lookup_lt _ _ i j); [done..|lia]).
    unfold ranks_le, time_of in Hle. rewrite Hti, Htj in Hle. lia.
  - intros i j oi oj b Hi Hj Hti Htj Hbi Hlt Hbj.
    destruct (decide (i < j)%nat) as [|Hge]; [done|exfalso].
    destruct (decide (i = j)) as [->|Hne]; [congruence|].
    assert (ranks_le oj oi) as Hle
      by (eapply (StronglySorted_lookup_lt _ _ j i); [done..|lia]).
    unfold ranks_le, time_of in Hle. rewrite Hti, Htj, Hbi, Hbj in Hle. lia.
Qed.

Lemma leaderboard_sorted_by_times_witness :
  ∃ out,
    (get_leaderboard hex24_ok race0 (world_of store_scenario)).1 = Return out
    ∧ StronglySorted ranks_le out
    ∧ (∀ i j oi oj t,
         out !! i = Some oi → out !! j = Some oj →
         oi !! "total_time_ms" = None →
         oj !! "total_time_ms" = Some (VInt t) → t < 1000000000000 →
         (j < i)%nat)
    ∧ (∀ i j oi oj b,
         out !! i = Some oi → out !! j = Some oj →
         oi !! "total_time_ms" = None → oj !! "total_time_ms" = None →
         oi !! "best_lap_ms" = Some (VInt b) → b < 1000000000000 →
         oj !! "best_lap_ms" = None →
         (i < j)%nat).
Proof.
  apply (leaderboard_sorted_by_times hex24_ok (world_of store_scenario)
           store_scenario race0); reflexivity.
Defined.

(** The scenario of the specification: C, A, B, D at positions 1 to 4. *)
Example leaderboard_scenario :
  (get_leaderboard hex24_ok race0 (world_of store_scenario)).1
  = Return [shown 1 entry_C; shown 2 entry_A; shown 3 entry_B; shown 4 entry_D].
Proof. vm_compute. reflexivity. Qed.

(** C1 as stated fails: a recorded total_time_ms above 10^12 is ranked
    after an entry that has none, so the sequence returned is not sorted
    with an absent time after every recorded one. *)
Lemma leaderboard_absent_before_recorded :
  ∃ out o1 o2,
    (get_leaderboard hex24_ok race0 (world_of store_slow)).1 = Return out
    ∧ out = [o1; o2]
    ∧ o1 !! "total_time_ms" = None
    ∧ o2 !! "total_time_ms" = Some (VInt 2000000000000)
    ∧ ¬ StronglySorted ranks_le_absent_last out.
Proof.
  exists [shown 1 entry_D; shown 2 entry_slow], (shown 1 entry_D),
    (shown 2 entry_slow).
  split; [vm_compute; reflexivity|]. split; [done|].
  rewrite !shown_lookup by done.
  split; [reflexivity|]. split; [reflexivity|].
  intros Hs. apply StronglySorted_inv in Hs as [_ Hf].
  apply Forall_cons_1 in Hf as [H _].
  unfold ranks_le_absent_last in H. rewrite !shown_lookup in H by done.
  destruct H as [H|[H _]]; [exact H|discriminate H].
Qed.

Lemma positions_of_shown (start : Z) (l : list doc) :
  (λ o : doc, o !! "position") <$> (to_str_id <$> assign_positions start l)
  = (λ p, Some (VInt p)) <$> seqZ start (Z.of_nat (length l)).
Proof.
  revert start. induction l as [|e l IH]; intros start; [done|].
  rewrite seqZ_cons by (simpl; lia). csimpl. rewrite IH. f_equal.
  - apply shown_position.
  - do 2 f_equal; lia.
Qed.

(** C2: the positions attached to the sequence returned for n retrieved
    entries are 1, 2, ..., n in output order, whatever ties there are on
    the sort keys; and the call does return when the store is configured,
    the identifier well-formed and the time fields absent or integers. *)
Theorem leaderboard_positions (ObjectId_ok : string → bool)
    (w : world) (s : database) (race_id : string) :
  db w = Some s → ObjectId_ok race_id = true →
  let entries := store_find s "entry" {[ "race_id" := VStr race_id ]} in
  (forallb timed entries = true →
   ∃ out, (get_leaderboard ObjectId_ok race_id w).1 = Return out)
  ∧ (∀ out,
       (get_leaderboard ObjectId_ok race_id w).1 = Return out →
       length out = length entries
       ∧ (λ o : doc, o !! "position") <$> out
         = (λ p, Some (VInt p)) <$> seqZ 1 (Z.of_nat (length entries))).
Proof.
  intros Hdb Hok entries. split.
  - intros Ht.
    destruct (get_leaderboard_timed ObjectId_ok w s race_id Hdb Hok Ht)
      as (r & _ & _ & Hout).
    by eexists.
  - intros out Hout.
    apply get_leaderboard_returns in Hout as (s' & r & Hdb' & _ & Hr & ->).
    assert (s' = s) as -> by congruence.
    apply list_sort_perm, Permutation_length in Hr. fold entries in Hr.
    rewrite <- Hr. split.
    + rewrite assign_positions_shown. apply length_imap.
    + apply positions_of_shown.
Qed.

Lemma leaderboard_positions_witness :
  let entries := store_find store_scenario "entry" {[ "race_id" := VStr race0 ]} in
  (forallb timed entries = true →
   ∃ out, (get_leaderboard hex24_ok race0 (world_of store_scenario)).1 = Return out)
  ∧ (∀ out,
       (get_leaderboard hex24_ok race0 (world_of store_scenario)).1 = Return out →
       length out = length entries
       ∧ (λ o : doc, o !! "position") <$> out
         = (λ p, Some (VInt p)) <$> seqZ 1 (Z.of_nat (length entries))).
Proof.
  apply (leaderboard_positions hex24_ok (world_of store_scenario)
           store_scenario race0); reflexivity.
Defined.



(** Entries with equal times keep the order in which they are stored,
    each with a position of its own. *)
Example leaderboard_tied :
  (get_leaderboard hex24_ok race0 (world_of store_tied)).1
  = Return [shown 1 entry_T1; shown 2 entry_T2; shown 3 entry_A]
  ∧ (get_leaderboard hex24_ok race0 (world_of store_tied_rev)).1
    = Return [shown 1 entry_T2; shown 2 entry_T1; shown 3 entry_A].
Proof. split; vm_compute; reflexivity. Qed.

(** A time stored as [None] is not replaced by the placeholder: compared
    with an integer it makes the sort raise. *)
Example leaderboard_null_time :
  (get_leaderboard hex24_ok race0 (world_of store_null)).1 = Raise TypeError.
Proof. vm_compute. reflexivity. Qed.

(** ** The entries retrieved *)

Lemma filter_none {A} (P : A → Prop) `{!∀ x, Decision (P x)} (l : list A) :
  (∀ x, x ∈ l → ¬ P x) → filter P l = [].
Proof.
  induction l as [|x l IH]; intros Hl; [done|].
  rewrite filter_cons_False by (apply Hl, list_elem_of_here).
  apply IH. intros y Hy. by apply Hl, list_elem_of_further.
Qed.

(** C6: with the store configured and a well-formed identifier that no
    stored entry carries as its race_id, the call returns the empty
    sequence. Nothing is asked of the races: whether a race with this
    identifier exists makes no difference. *)
Theorem leaderboard_no_entries (ObjectId_ok : string → bool)
    (w : world) (s : database) (race_id : string) :
  db w = Some s → ObjectId_ok race_id = true →
  (∀ e, e ∈ collection s "entry" → e !! "race_id" ≠ Some (VStr race_id)) →
  (get_leaderboard ObjectId_ok race_id w).1 = Return [].
Proof.
  intros Hdb Hok Hnone.
  rewrite (get_leaderboard_valid ObjectId_ok w s race_id Hdb Hok).
  rewrite store_find_race_id.
  by rewrite (filter_none _ _ Hnone).
Qed.

Lemma leaderboard_no_entries_witness :
  (get_leaderboard hex24_ok "ffffffffffffffffffffffff"
     (world_of store_scenario)).1 = Return [].
Proof.
  apply (leaderboard_no_entries hex24_ok (world_of store_scenario)
           store_scenario "ffffffffffffffffffffffff");
    [reflexivity|reflexivity|].
  intros e He. unfold collection, store_scenario in He.
  rewrite lookup_singleton_eq in He. simpl in He.
  set_unfold in He. destruct He as [->|[->|[->|[->|[->|[]]]]]];
    vm_compute; discriminate.
Defined.

Lemma Forall2_imap_r {A B} (P : A → B → Prop) (f : nat → A → B) (l : list A) :
  (∀ i x, l !! i = Some x → P x (f i x)) → Forall2 P l (imap f l).
Proof.
  revert f. induction l as [|x l IH]; intros f Hf; simpl; constructor.
  - by apply (Hf 0%nat).
  - apply IH. intros i y Hy. by apply (Hf (S i)).
Qed.

(** C9: the entries ranked are the stored entries whose race_id field is
    the string given, each as many times as it is stored: the sequence
    returned has one document for each of them, in the ranked order, with
    the race_id and every field other than position, id and _id as
    stored; an entry whose race_id holds the identifier as a typed
    reference is not among them. *)
Theorem leaderboard_ranks_matching (ObjectId_ok : string → bool)
    (w : world) (s : database) (race_id : string) :
  db w = Some s → ObjectId_ok race_id = true →
  let entries := store_find s "entry" {[ "race_id" := VStr race_id ]} in
  (forallb timed entries = true →
   ∃ out, (get_leaderboard ObjectId_ok race_id w).1 = Return out)
  ∧ (∀ out,
       (get_leaderboard ObjectId_ok race_id w).1 = Return out →
       ∃ ranked,
         out = to_str_id <$> assign_positions 1 ranked
         ∧ ranked ≡ₚ filter (λ e : doc, e !! "race_id" = Some (VStr race_id))
                       (collection s "entry")
         ∧ (∀ e : doc, e !! "race_id" = Some (VOid race_id) → e ∉ ranked)
         ∧ length out
           = length (filter (λ e : doc, e !! "race_id" = Some (VStr race_id))
                       (collection s "entry"))
         ∧ Forall2
             (λ e o : doc,
                o !! "race_id" = Some (VStr race_id)
                ∧ ∀ k, k ≠ "position" → k ≠ "id" → k ≠ "_id" →
                       o !! k = e !! k)
             ranked out).
Proof.
  intros Hdb Hok entries. split.
  - intros Ht.
    destruct (get_leaderboard_timed ObjectId_ok w s race_id Hdb Hok Ht)
      as (r & _ & _ & Hout).
    by eexists.
  - intros out Hout.
    apply get_leaderboard_returns in Hout as (s' & r & Hdb' & _ & Hr & ->).
    assert (s' = s) as -> by congruence.
    apply list_sort_perm in Hr. rewrite store_find_race_id in Hr.
    exists r. split_and!; [done|done|..].
    + intros e He Hin. rewrite Hr in Hin.
      apply list_elem_of_filter in Hin as [Hid _]. congruence.
    + rewrite assign_positions_shown, length_imap.
      by apply Permutation_length.
    + rewrite assign_positions_shown. apply Forall2_imap_r.
      intros i e He. split.
      * rewrite shown_lookup by done.
        apply list_elem_of_lookup_2 in He. rewrite Hr in He.
        by apply list_elem_of_filter in He as [He _].
      * intros k. apply shown_lookup.
Qed.

Lemma leaderboard_ranks_matching_witness :
  let entries := store_find store_scenario "entry" {[ "race_id" := VStr race0 ]} in
  (forallb timed entries = true →
   ∃ out, (get_leaderboard hex24_ok race0 (world_of store_scenario)).1 = Return out)
  ∧ (∀ out,
       (get_leaderboard hex24_ok race0 (world_of store_scenario)).1 = Return out →
       ∃ ranked,
         out = to_str_id <$> assign_positions 1 ranked
         ∧ ranked ≡ₚ filter (λ e : doc, e !! "race_id" = Some (VStr race0))
                       (collection store_scenario "entry")
         ∧ (∀ e : doc, e !! "race_id" = Some (VOid race0) → e ∉ ranked)
         ∧ length out
           = length (filter (λ e : doc, e !! "race_id" = Some (VStr race0))
                       (collection store_scenario "entry"))
         ∧ Forall2
             (λ e o : doc,
                o !! "race_id" = Some (VStr race0)
                ∧ ∀ k, k ≠ "position" → k ≠ "id" → k ≠ "_id" →
                       o !! k = e !! k)
             ranked out).
Proof.
  apply (leaderboard_ranks_matching hex24_ok (world_of store_scenario)
           store_scenario race0); reflexivity.
Defined.

(** C10: with the store configured, a stored entry whose race_id is a
    string the identifier check refuses is returned by no call: the call
    with that very string is answered 400 without any access to the store,
    and a call that returns has ranked entries among which it is not. *)
Theorem malformed_entry_never_returned (ObjectId_ok : string → bool)
    (w : world) (s : database) (e : doc) (h : string) :
  db w = Some s →
  e ∈ collection s "entry" → e !! "race_id" = Some (VStr h) →
  ObjectId_ok h = false →
  get_leaderboard ObjectId_ok h w
  = (Raise (HTTPException 400 "Invalid race id"), w)
  ∧ (∀ race_id out,
       (get_leaderboard ObjectId_ok race_id w).1 = Return out →
       ∃ ranked,
         out = to_str_id <$> assign_positions 1 ranked ∧ (e ∉ ranked)
         ∧ (∀ o, o ∈ out → o !! "race_id" = Some (VStr race_id))
         ∧ race_id ≠ h).
Proof.
  intros Hdb He Hid Hbad. split.
  - by apply (get_leaderboard_invalid ObjectId_ok w s).
  - intros race_id out Hout.
    apply get_leaderboard_returns in Hout as (s' & r & Hdb' & Hok & Hr & ->).
    assert (s' = s) as -> by congruence.
    apply list_sort_perm in Hr. rewrite store_find_race_id in Hr.
    assert (race_id ≠ h) as Hne by congruence.
    exists r. split; [done|]. split_and!; [| |done].
    + rewrite Hr. intros Hin. apply list_elem_of_filter in Hin as [Hin _].
      congruence.
    + intros o Ho. rewrite assign_positions_shown in Ho.
      apply elem_of_lookup_imap in Ho as (i & x & -> & Hx).
      rewrite shown_lookup by done.
      apply list_elem_of_lookup_2 in Hx. rewrite Hr in Hx.
      by apply list_elem_of_filter in Hx as [Hx _].
Qed.

Lemma malformed_entry_never_returned_witness :
  get_leaderboard hex24_ok "final" (world_of store_stray)
  = (Raise (HTTPException 400 "Invalid race id"), world_of store_stray)
  ∧ (∀ race_id out,
       (get_leaderboard hex24_ok race_id (world_of store_stray)).1 = Return out →
       ∃ ranked,
         out = to_str_id <$> assign_positions 1 ranked ∧ (entry_stray ∉ ranked)
         ∧ (∀ o, o ∈ out → o !! "race_id" = Some (VStr race_id))
         ∧ race_id ≠ "final").
Proof.
  apply (malformed_entry_never_returned hex24_ok (world_of store_stray)
           store_stray entry_stray "final").
  - reflexivity.
  - unfold collection, store_stray. rewrite lookup_singleton_eq. simpl.
    apply list_elem_of_here.
  - reflexivity.
  - reflexivity.
Defined.

(** ** The identifier check *)

Lemma sort_insert_raises {A K} (key : A → K) (lt : K → K → outcome bool)
    (e0 e : exn) (x : A) (l : list A) :
  (∀ k1 k2 e', lt k1 k2 = Raise e' → e' = e0) →
  sort_insert key lt x l = Raise e → e = e0.
Proof.
  intros Hlt. induction l as [|y l IH]; simpl; [done|].
  destruct (lt (key y) (key x)) as [[|]|e'] eqn:Hyx; try done.
  - destruct (sort_insert key lt x l); [done|]. intros [= <-]. by apply IH.
  - intros [= <-]. by eapply Hlt.
Qed.

Lemma list_sort_raises {A K} (key : A → K) (lt : K → K → outcome bool)
    (e0 e : exn) (l : list A) :
  (∀ k1 k2 e', lt k1 k2 = Raise e' → e' = e0) →
  list_sort key lt l = Raise e → e = e0.
Proof.
  intros Hlt. induction l as [|x l IH]; simpl; [done|].
  destruct (list_sort key lt l) as [r|e'].
  - by apply sort_insert_raises.
  - intros [= <-]. by apply IH.
Qed.

Lemma tuple_lt_raises (k1 k2 : value * value) (e : exn) :
  tuple_lt k1 k2 = Raise e → e = TypeError.
Proof.
  unfold tuple_lt.
  assert (∀ a b, py_lt a b = Raise e → e = TypeError) as Hlt
    by (intros [] []; simpl; congruence).
  repeat case_match; try done; apply Hlt.
Qed.

(** C4: with the store configured, a call whose race_id the identifier
    check refuses fails with the 400 "Invalid race id", a client error,
    and leaves the world as it was, the record of store accesses included;
    a call whose race_id the check accepts is not answered 400. *)
Theorem leaderboard_identifier_check (ObjectId_ok : string → bool)
    (w : world) (s : database) (race_id : string) :
  db w = Some s →
  (ObjectId_ok race_id = false →
   get_leaderboard ObjectId_ok race_id w
   = (Raise (HTTPException 400 "Invalid race id"), w)
   ∧ is_client_error (http_status (get_leaderboard ObjectId_ok race_id w).1)
     = true)
  ∧ (ObjectId_ok race_id = true →
     http_status (get_leaderboard ObjectId_ok race_id w).1 ≠ 400%nat).
Proof.
  intros Hdb. split.
  - intros Hbad.
    by rewrite (get_leaderboard_invalid ObjectId_ok w s race_id Hdb Hbad).
  - intros Hok.
    rewrite (get_leaderboard_valid ObjectId_ok w s race_id Hdb Hok). simpl.
    destruct (list_sort _ _ _) as [r|e] eqn:Hr; simpl; [done|].
    apply (list_sort_raises _ _ TypeError) in Hr as ->; [done|].
    apply tuple_lt_raises.
Qed.

Lemma leaderboard_identifier_check_witness :
  (hex24_ok "not-an-id" = false →
   get_leaderboard hex24_ok "not-an-id" (world_of store_scenario)
   = (Raise (HTTPException 400 "Invalid race id"), world_of store_scenario)
   ∧ is_client_error
       (http_status (get_leaderboard hex24_ok "not-an-id"
                       (world_of store_scenario)).1) = true)
  ∧ (hex24_ok "not-an-id" = true →
     http_status (get_leaderboard hex24_ok "not-an-id"
                    (world_of store_scenario)).1 ≠ 400%nat).
Proof.
  apply (leaderboard_identifier_check hex24_ok (world_of store_scenario)
           store_scenario "not-an-id").
  reflexivity.
Defined.

(** Without a configured store the handler answers 500 before it looks at
    the identifier. *)
Example leaderboard_unconfigured_store :
  get_leaderboard hex24_ok "not-an-id" world_unconfigured
  = (Raise (HTTPException 500 "Database not configured"), world_unconfigured).
Proof. reflexivity. Qed.

(** ** The effect on the store *)

(** C8: a call of the leaderboard leaves the stored documents as they
    were, whatever it returns: the only access it may make is the one read
    of the entries, and the positions exist in the returned documents
    only. *)
Theorem leaderboard_pure_read (ObjectId_ok : string → bool)
    (w : world) (race_id : string) :
  db (get_leaderboard ObjectId_ok race_id w).2 = db w
  ∧ issued (get_leaderboard ObjectId_ok race_id w).2 = issued w
  ∧ (trace (get_leaderboard ObjectId_ok race_id w).2 = trace w
     ∨ trace (get_leaderboard ObjectId_ok race_id w).2
       = (trace w ++ [OpFind "entry" {[ "race_id" := VStr race_id ]}])%list).
Proof.
  destruct (db w) as [s|] eqn:Hdb.
  - destruct (ObjectId_ok race_id) eqn:Hok.
    + rewrite (get_leaderboard_valid ObjectId_ok w s race_id Hdb Hok). simpl.
      auto.
    + rewrite (get_leaderboard_invalid ObjectId_ok w s race_id Hdb Hok). simpl.
      auto.
  - rewrite (get_leaderboard_unconfigured ObjectId_ok w race_id Hdb). simpl.
    auto.
Qed.

(** After the scenario is ranked the stored entries carry no position. *)
Example leaderboard_scenario_store :
  db (get_leaderboard hex24_ok race0 (world_of store_scenario)).2
  = Some store_scenario
  ∧ Forall (λ e : doc, e !! "position" = None) (collection store_scenario "entry").
Proof. split; [reflexivity|]. repeat constructor. Qed.

(** ** The creation of a race *)

Lemma post_races_unconfigured (ObjectId_new : nat → string)
    (b : gmap string json) (w : world) (payload : RaceCreate) :
  db w = None → RaceCreate_validate b = Return payload →
  post_races ObjectId_new b w
  = (Raise (HTTPException 500 "Database not configured"), w).
Proof.
  intros Hdb Hb.
  unfold post_races, create_race, mbind, handler_bind, lift, require_db.
  by rewrite Hb, Hdb.
Qed.

Lemma post_races_invalid (ObjectId_new : nat → string)
    (b : gmap string json) (w : world) (e : exn) :
  RaceCreate_validate b = Raise e →
  post_races ObjectId_new b w = (Raise RequestValidationError, w).
Proof.
  intros Hb. unfold post_races, mbind, handler_bind, lift. rewrite Hb.
  unfold RaceCreate_validate in Hb. by case_match; simplify_eq.
Qed.

Lemma model_dump_no_id (payload : RaceCreate) :
  <["status" := VStr "pending"]> (model_dump payload) !! "_id" = None.
Proof. unfold model_dump. by rewrite !lookup_insert_ne, lookup_empty. Qed.

Lemma post_races_valid (ObjectId_new : nat → string)
    (b : gmap string json) (w : world) (s : database) (payload : RaceCreate) :
  db w = Some s → RaceCreate_validate b = Return payload →
  post_races ObjectId_new b w
  = (Return {[ "id" := VStr (ObjectId_new (issued w)) ]},
     World
       (Some (<["race" := (collection s "race"
                           ++ [race_document (ObjectId_new (issued w)) payload])%list]> s))
       (S (issued w))
       (trace w ++ [OpInsertOne "race"
                      (race_document (ObjectId_new (issued w)) payload)])%list).
Proof.
  intros Hdb Hb.
  unfold post_races, create_race, mbind, handler_bind, lift, require_db,
    insert_one, mret, handler_ret.
  rewrite Hb. simpl. rewrite !Hdb, model_dump_no_id. simpl.
  unfold dict_get. by rewrite lookup_insert_eq.
Qed.

(** C7: with the store configured, a request body that [RaceCreate]
    accepts makes [POST /races] store one race document, whose status is
    "pending" whatever the body holds, and return the object with the one
    field [id], the new identifier as a string; and the world changes in
    no other case. *)
Theorem race_created_pending (ObjectId_new : nat → string)
    (b : gmap string json) (w : world) :
  (∀ s payload,
     db w = Some s → RaceCreate_validate b = Return payload →
     let oid := ObjectId_new (issued w) in
     post_races ObjectId_new b w
     = (Return {[ "id" := VStr oid ]},
        World
          (Some (<["race" := (collection s "race"
                              ++ [race_document oid payload])%list]> s))
          (S (issued w))
          (trace w ++ [OpInsertOne "race" (race_document oid payload)])%list)
     ∧ race_document oid payload !! "status" = Some (VStr "pending")
     ∧ race_document oid payload !! "_id" = Some (VOid oid)
     ∧ race_document oid payload !! "allowed_vehicle_codes"
       = Some (VList (allowed_vehicle_codes payload))
     ∧ (b !! "allowed_vehicle_codes" = None → allowed_vehicle_codes payload = []))
  ∧ ((post_races ObjectId_new b w).2 ≠ w →
     ∃ s payload, db w = Some s ∧ RaceCreate_validate b = Return payload).
Proof.
  split.
  - intros s payload Hdb Hb oid. split_and!.
    + by apply post_races_valid.
    + unfold race_document. by rewrite lookup_insert_ne, lookup_insert_eq.
    + unfold race_document. by rewrite lookup_insert_eq.
    + unfold race_document, model_dump.
      rewrite !lookup_insert_ne by done. apply lookup_insert_eq.
    + intros Hnone. unfold RaceCreate_validate in Hb. rewrite Hnone in Hb.
      destruct (b !! "map_code" ≫= json_str); [|done].
      destruct (b !! "laps" ≫= json_int); [|done]. simpl in Hb.
      destruct (match b !! "created_by" with
                | Some JNull | None => Some None
                | Some (JStr s0) => Some (Some s0)
                | Some _ => None
                end); simpl in Hb; [|done].
      by simplify_eq.
  - intros Hw. destruct (RaceCreate_validate b) as [payload|e] eqn:Hb.
    + destruct (db w) as [s|] eqn:Hdb; [by eauto|].
      by rewrite (post_races_unconfigured ObjectId_new b w payload) in Hw.
    + by rewrite (post_races_invalid ObjectId_new b w e) in Hw.
Qed.

Lemma race_created_pending_witness :
  (∀ s payload,
     db (world_of ∅) = Some s →
     RaceCreate_validate body_with_status = Return payload →
     let oid := hex24_new (issued (world_of ∅)) in
     post_races hex24_new body_with_status (world_of ∅)
     = (Return {[ "id" := VStr oid ]},
        World
          (Some (<["race" := (collection s "race"
                              ++ [race_document oid payload])%list]> s))
          (S (issued (world_of ∅)))
          (trace (world_of ∅)
           ++ [OpInsertOne "race" (race_document oid payload)])%list)
     ∧ race_document oid payload !! "status" = Some (VStr "pending")
     ∧ race_document oid payload !! "_id" = Some (VOid oid)
     ∧ race_document oid payload !! "allowed_vehicle_codes"
       = Some (VList (allowed_vehicle_codes payload))
     ∧ (body_with_status !! "allowed_vehicle_codes" = None →
        allowed_vehicle_codes payload = []))
  ∧ ((post_races hex24_new body_with_status (world_of ∅)).2 ≠ world_of ∅ →
     ∃ s payload,
       db (world_of ∅) = Some s
       ∧ RaceCreate_validate body_with_status = Return payload).
Proof. apply (race_created_pending hex24_new body_with_status (world_of ∅)). Defined.

(** A body that asks for another status is stored as pending all the same. *)
Example race_created_pending_scenario :
  RaceCreate_validate body_with_status
  = Return {| map_code := "vinewood_loop"; laps := 3;
              allowed_vehicle_codes := ["zentorno"; "elegy"];
              created_by := Some "Flames" |}
  ∧ (post_races hex24_new body_with_status (world_of ∅)).1
    = Return {[ "id" := VStr "000000000000000000000000" ]}
  ∧ (λ s : database, (λ d : doc, d !! "status") <$> collection s "race")
      <$> db (post_races hex24_new body_with_status (world_of ∅)).2
    = Some [Some (VStr "pending")].
Proof. vm_compute. done. Qed.

(** C3 fails on the code: [RaceCreate] puts no range on [laps], so a body
    with [laps] 0 or 101, which [schemas.Race] refuses, is accepted, and
    the race is stored with that number of laps. *)
Theorem post_races_laps_out_of_range :
  Race_laps_ok 0 = false ∧ Race_laps_ok 101 = false
  ∧ (∀ n : Z,
       post_races hex24_new (body_laps n) (world_of ∅)
       = (Return {[ "id" := VStr "000000000000000000000000" ]},
          World
            (Some {[ "race" :=
               [ {[ "_id" := VOid "000000000000000000000000";
                    "status" := VStr "pending";
                    "map_code" := VStr "downtown_dash";
                    "laps" := VInt n;
                    "allowed_vehicle_codes" := VList [];
                    "created_by" := VNone ]} ] ]})
            1
            [OpInsertOne "race"
               {[ "_id" := VOid "000000000000000000000000";
                  "status" := VStr "pending";
                  "map_code" := VStr "downtown_dash";
                  "laps" := VInt n;
                  "allowed_vehicle_codes" := VList [];
                  "created_by" := VNone ]}])).
Proof.
  split; [done|]. split; [done|]. intros n.
  vm_compute. reflexivity.
Qed.


(** ** More on [to_str_id] *)

Lemma to_str_id_no_id (d : doc) : to_str_id d !! "_id" = None.
Proof.
  unfold to_str_id. destruct (d !! "_id") as [v|] eqn:Hid.
  - case_bool_decide as Hne.
    + by rewrite lookup_insert_ne, lookup_delete_eq.
    + destruct (decide (d = ∅)) as [->|]; [|done]. apply lookup_empty.
  - by case_bool_decide.
Qed.

Lemma to_str_id_id (d : doc) (v : value) :
  d !! "_id" = Some v → to_str_id d !! "id" = Some (VStr (py_str v)).
Proof.
  intros Hid. unfold to_str_id. rewrite Hid.
  case_bool_decide as Hne; [apply lookup_insert_eq|].
  destruct (decide (d = ∅)) as [->|]; [|done].
  by rewrite lookup_empty in Hid.
Qed.

Lemma to_str_id_without_id (d : doc) : d !! "_id" = None → to_str_id d = d.
Proof. intros Hid. unfold to_str_id. rewrite Hid. by case_bool_decide. Qed.

Lemma to_str_id_other (d : doc) (k : string) :
  k ≠ "id" → k ≠ "_id" → to_str_id d !! k = d !! k.
Proof.
  intros Hk1 Hk2. unfold to_str_id.
  case_bool_decide; [|done]. destruct (d !! "_id"); [|done].
  by rewrite lookup_insert_ne, lookup_delete_ne.
Qed.

(** X1: the document [to_str_id] returns never holds [_id]; when the
    argument holds an [_id] that is [None], an integer, a string or an
    identifier, [id] is its text, whatever [id] held before; when it holds
    no [_id] the document is returned as it is; every other field is
    kept. *)
Theorem to_str_id_shape (d : doc) :
  to_str_id d !! "_id" = None
  ∧ (∀ v, d !! "_id" = Some v → (∀ l, v ≠ VList l) →
       to_str_id d !! "id" = Some (VStr (py_str v)))
  ∧ (d !! "_id" = None → to_str_id d = d)
  ∧ (∀ k, k ≠ "id" → k ≠ "_id" → to_str_id d !! k = d !! k).
Proof.
  split_and!.
  - apply to_str_id_no_id.
  - intros v Hid _. by apply to_str_id_id.
  - apply to_str_id_without_id.
  - apply to_str_id_other.
Qed.

(** X2: applying [to_str_id] a second time changes nothing. *)
Theorem to_str_id_idempotent (d : doc) :
  to_str_id (to_str_id d) = to_str_id d.
Proof. apply to_str_id_without_id, to_str_id_no_id. Qed.

(** ** More on [get_leaderboard] *)

Lemma shown_no_id (p : Z) (e : doc) : shown p e !! "_id" = None.
Proof. apply to_str_id_no_id. Qed.

Lemma shown_id (p : Z) (e : doc) (v : value) :
  e !! "_id" = Some v → shown p e !! "id" = Some (VStr (py_str v)).
Proof.
  intros He. apply to_str_id_id. by rewrite lookup_insert_ne.
Qed.

(** X3: the documents returned are the retrieved entries in their ranked
    order, each without [_id], with its rank as [position], with the text
    of its [_id] as [id], and with every other field as it is stored. *)
Theorem leaderboard_response_shape (ObjectId_ok : string → bool)
    (w : world) (race_id : string) (out : list doc) :
  (get_leaderboard ObjectId_ok race_id w).1 = Return out →
  ∃ s ranked,
    db w = Some s
    ∧ ranked ≡ₚ store_find s "entry" {[ "race_id" := VStr race_id ]}
    ∧ length out = length ranked
    ∧ ∀ (i : nat) (e : doc), ranked !! i = Some e →
        ∃ o, out !! i = Some o
             ∧ o !! "_id" = None
             ∧ o !! "position" = Some (VInt (1 + Z.of_nat i))
             ∧ (∀ v, e !! "_id" = Some v → o !! "id" = Some (VStr (py_str v)))
             ∧ (∀ k, k ≠ "position" → k ≠ "id" → k ≠ "_id" → o !! k = e !! k).
Proof.
  intros Hout.
  apply get_leaderboard_returns in Hout as (s & r & Hdb & _ & Hr & ->).
  exists s, r. split; [done|]. split; [by apply list_sort_perm in Hr|].
  rewrite assign_positions_shown. split; [apply length_imap|].
  intros i e He. exists (shown (1 + Z.of_nat i) e).
  rewrite list_lookup_imap, He. split_and!; [done|..].
  - apply shown_no_id.
  - apply shown_position.
  - intros v. apply shown_id.
  - intros k. apply shown_lookup.
Qed.

Lemma leaderboard_response_shape_witness :
  ∃ s ranked,
    db (world_of store_scenario) = Some s
    ∧ ranked ≡ₚ store_find s "entry" {[ "race_id" := VStr race0 ]}
    ∧ length [shown 1 entry_C; shown 2 entry_A; shown 3 entry_B; shown 4 entry_D]
      = length ranked
    ∧ ∀ (i : nat) (e : doc), ranked !! i = Some e →
        ∃ o, [shown 1 entry_C; shown 2 entry_A; shown 3 entry_B; shown 4 entry_D]
               !! i = Some o
             ∧ o !! "_id" = None
             ∧ o !! "position" = Some (VInt (1 + Z.of_nat i))
             ∧ (∀ v, e !! "_id" = Some v → o !! "id" = Some (VStr (py_str v)))
             ∧ (∀ k, k ≠ "position" → k ≠ "id" → k ≠ "_id" → o !! k = e !! k).
Proof.
  apply (leaderboard_response_shape hex24_ok (world_of store_scenario) race0).
  vm_compute. reflexivity.
Defined.

(** The outcome of a call depends on the world through the entries of
    the store alone. *)
Lemma get_leaderboard_same_entries (ObjectId_ok : string → bool)
    (w1 w2 : world) (race_id : string) :
  (λ s : database, collection s "entry") <$> db w1
  = (λ s : database, collection s "entry") <$> db w2 →
  (get_leaderboard ObjectId_ok race_id w1).1
  = (get_leaderboard ObjectId_ok race_id w2).1.
Proof.
  intros Hsame.
  destruct (db w1) as [s1|] eqn:H1, (db w2) as [s2|] eqn:H2; simplify_eq/=.
  - destruct (ObjectId_ok race_id) eqn:Hok.
    + rewrite (get_leaderboard_valid ObjectId_ok w1 s1 race_id H1 Hok),
        (get_leaderboard_valid ObjectId_ok w2 s2 race_id H2 Hok).
      unfold store_find. simpl. by rewrite Hsame.
    + by rewrite (get_leaderboard_invalid ObjectId_ok w1 s1 race_id H1 Hok),
        (get_leaderboard_invalid ObjectId_ok w2 s2 race_id H2 Hok).
  - by rewrite (get_leaderboard_unconfigured ObjectId_ok w1 race_id H1),
      (get_leaderboard_unconfigured ObjectId_ok w2 race_id H2).
Qed.

Lemma get_leaderboard_db (ObjectId_ok : string → bool)
    (w : world) (race_id : string) :
  db (get_leaderboard ObjectId_ok race_id w).2 = db w.
Proof.
  destruct (db w) as [s|] eqn:Hdb.
  - destruct (ObjectId_ok race_id) eqn:Hok.
    + by rewrite (get_leaderboard_valid ObjectId_ok w s race_id Hdb Hok).
    + by rewrite (get_leaderboard_invalid ObjectId_ok w s race_id Hdb Hok).
  - by rewrite (get_leaderboard_unconfigured ObjectId_ok w race_id Hdb).
Qed.

(** X4: a call made again in the world the first call left, with the
    same or another identifier, gives what it would have given before that
    call; with the same identifier it gives the same ranking and the same
    positions. *)
Theorem leaderboard_repeatable (ObjectId_ok : string → bool)
    (w : world) (race_id race_id' : string) :
  (get_leaderboard ObjectId_ok race_id'
     (get_leaderboard ObjectId_ok race_id w).2).1
  = (get_leaderboard ObjectId_ok race_id' w).1.
Proof.
  apply get_leaderboard_same_entries. by rewrite get_leaderboard_db.
Qed.

Lemma forallb_false_elem {A} (f : A → bool) (l : list A) :
  forallb f l = false → ∃ x, x ∈ l ∧ f x = false.
Proof.
  induction l as [|x l IH]; simpl; [done|].
  destruct (f x) eqn:Hx; simpl.
  - intros (y & Hy & Hfy)%IH. exists y. split; [by apply list_elem_of_further|done].
  - intros _. exists x. split; [apply list_elem_of_here|done].
Qed.

(** X5: a call fails in three ways only: 500 "Database not configured"
    when the store is not configured; 400 "Invalid race id" when it is and
    the identifier is refused; a [TypeError] from the sort, and then one of
    the retrieved entries holds, as total_time_ms or best_lap_ms, a value
    that is not an integer. *)
Theorem leaderboard_failures (ObjectId_ok : string → bool)
    (w : world) (race_id : string) (e : exn) :
  (get_leaderboard ObjectId_ok race_id w).1 = Raise e →
  (db w = None ∧ e = HTTPException 500 "Database not configured")
  ∨ (∃ s, db w = Some s ∧ ObjectId_ok race_id = false
          ∧ e = HTTPException 400 "Invalid race id")
  ∨ (∃ s entry,
       db w = Some s ∧ ObjectId_ok race_id = true ∧ e = TypeError
       ∧ entry ∈ store_find s "entry" {[ "race_id" := VStr race_id ]}
       ∧ timed entry = false).
Proof.
  intros Hout. destruct (db w) as [s|] eqn:Hdb.
  - right. destruct (ObjectId_ok race_id) eqn:Hok.
    + right.
      destruct (forallb timed
                  (store_find s "entry" {[ "race_id" := VStr race_id ]}))
        eqn:Ht.
      * destruct (get_leaderboard_timed ObjectId_ok w s race_id Hdb Hok Ht)
          as (r & _ & _ & Hr).
        congruence.
      * apply forallb_false_elem in Ht as (entry & Hin & Hnt).
        exists s, entry. split_and!; try done.
        rewrite (get_leaderboard_valid ObjectId_ok w s race_id Hdb Hok) in Hout.
        simpl in Hout.
        destruct (list_sort _ _ _) as [r|e'] eqn:Hr; simpl in Hout; [done|].
        simplify_eq.
        apply (list_sort_raises _ _ TypeError) in Hr; [done|].
        apply tuple_lt_raises.
    + left. exists s.
      rewrite (get_leaderboard_invalid ObjectId_ok w s race_id Hdb Hok) in Hout.
      by simplify_eq/=.
  - left.
    rewrite (get_leaderboard_unconfigured ObjectId_ok w race_id Hdb) in Hout.
    by simplify_eq/=.
Qed.

Lemma leaderboard_failures_witness :
  (db (world_of store_null) = None
   ∧ TypeError = HTTPException 500 "Database not configured")
  ∨ (∃ s, db (world_of store_null) = Some s ∧ hex24_ok race0 = false
          ∧ TypeError = HTTPException 400 "Invalid race id")
  ∨ (∃ s entry,
       db (world_of store_null) = Some s ∧ hex24_ok race0 = true
       ∧ TypeError = TypeError
       ∧ entry ∈ store_find s "entry" {[ "race_id" := VStr race0 ]}
       ∧ timed entry = false).
Proof.
  apply (leaderboard_failures hex24_ok (world_of store_null) race0 TypeError).
  vm_compute. reflexivity.
Defined.

(** X6: when two entries are retrieved, one with total_time_ms stored as
    [None] and one with an integer there, the placeholder is not used and
    the call fails with the [TypeError] of the comparison. *)
Theorem leaderboard_none_time_raises (ObjectId_ok : string → bool)
    (w : world) (s : database) (race_id : string) (e1 e2 : doc) :
  db w = Some s → ObjectId_ok race_id = true →
  store_find s "entry" {[ "race_id" := VStr race_id ]} = [e1; e2] →
  (e1 !! "total_time_ms" = Some VNone
   ∧ ∃ t, e2 !! "total_time_ms" = Some (VInt t))
  ∨ (e2 !! "total_time_ms" = Some VNone
     ∧ ∃ t, e1 !! "total_time_ms" = Some (VInt t)) →
  (get_leaderboard ObjectId_ok race_id w).1 = Raise TypeError
  ∧ http_status (get_leaderboard ObjectId_ok race_id w).1 = 500%nat.
Proof.
  intros Hdb Hok Hfind Hnone.
  rewrite (get_leaderboard_valid ObjectId_ok w s race_id Hdb Hok), Hfind.
  assert (tuple_lt (sort_key e2) (sort_key e1) = Raise TypeError) as Hlt.
  { unfold tuple_lt, sort_key, dict_get, py_eq. simpl.
    destruct Hnone as [[-> [t ->]]|[-> [t ->]]];
      by rewrite bool_decide_eq_false_2. }
  simpl. by rewrite Hlt.
Qed.

Lemma leaderboard_none_time_raises_witness :
  (get_leaderboard hex24_ok race0 (world_of store_null)).1 = Raise TypeError
  ∧ http_status (get_leaderboard hex24_ok race0 (world_of store_null)).1
    = 500%nat.
Proof.
  apply (leaderboard_none_time_raises hex24_ok (world_of store_null)
           store_null race0 entry_A entry_null).
  - reflexivity.
  - reflexivity.
  - vm_compute. reflexivity.
  - right. split; [reflexivity|]. exists 120000. reflexivity.
Defined.

(** ** More on the creation of a race *)

Lemma post_races_entries (ObjectId_new : nat → string)
    (b : gmap string json) (w : world) :
  (λ s : database, collection s "entry") <$> db (post_races ObjectId_new b w).2
  = (λ s : database, collection s "entry") <$> db w.
Proof.
  destruct (RaceCreate_validate b) as [payload|e] eqn:Hb.
  - destruct (db w) as [s|] eqn:Hdb.
    + rewrite (post_races_valid ObjectId_new b w s payload Hdb Hb). simpl.
      unfold collection. by rewrite lookup_insert_ne.
    + rewrite (post_races_unconfigured ObjectId_new b w payload Hdb Hb).
      simpl. by rewrite Hdb.
  - by rewrite (post_races_invalid ObjectId_new b w e Hb).
Qed.

(** X7: creating a race changes no leaderboard: after any [POST /races],
    accepted or not, every leaderboard call gives what it gave before. *)
Theorem leaderboard_after_post_races (ObjectId_ok : string → bool)
    (ObjectId_new : nat → string) (b : gmap string json)
    (w : world) (race_id : string) :
  (get_leaderboard ObjectId_ok race_id (post_races ObjectId_new b w).2).1
  = (get_leaderboard ObjectId_ok race_id w).1.
Proof. apply get_leaderboard_same_entries, post_races_entries. Qed.

(** X8: without a configured store [POST /races] creates nothing and
    never returns, whatever the body: the world is left as it was, and a
    body that [RaceCreate] accepts is answered 500 "Database not
    configured". *)
Theorem post_races_store_unavailable (ObjectId_new : nat → string)
    (b : gmap string json) (w : world) :
  db w = None →
  (post_races ObjectId_new b w).2 = w
  ∧ (∀ created, (post_races ObjectId_new b w).1 ≠ Return created)
  ∧ (∀ payload,
       RaceCreate_validate b = Return payload →
       (post_races ObjectId_new b w).1
       = Raise (HTTPException 500 "Database not configured")).
Proof.
  intros Hdb. destruct (RaceCreate_validate b) as [payload|e] eqn:Hb.
  - rewrite (post_races_unconfigured ObjectId_new b w payload Hdb Hb).
    split_and!; [done|done|]. by intros payload' _.
  - rewrite (post_races_invalid ObjectId_new b w e Hb).
    split_and!; [done|done|]. by intros payload' [=].
Qed.

Lemma post_races_store_unavailable_witness :
  (post_races hex24_new body_with_status world_unconfigured).2
  = world_unconfigured
  ∧ (∀ created,
       (post_races hex24_new body_with_status world_unconfigured).1
       ≠ Return created)
  ∧ (∀ payload,
       RaceCreate_validate body_with_status = Return payload →
       (post_races hex24_new body_with_status world_unconfigured).1
       = Raise (HTTPException 500 "Database not configured")).
Proof.
  apply (post_races_store_unavailable hex24_new body_with_status
           world_unconfigured).
  reflexivity.
Defined.

(** X9: a body without map_code, or whose map_code is not a string, or
    without laps, or whose laps is null or an array, is refused with 422
    and nothing is stored, whether or not the store is configured. *)
Theorem post_races_required_fields (ObjectId_new : nat → string)
    (b : gmap string json) (w : world) :
  b !! "map_code" ≫= json_str = None
  ∨ b !! "laps" = None
  ∨ b !! "laps" = Some JNull
  ∨ (∃ l, b !! "laps" = Some (JArr l)) →
  post_races ObjectId_new b w = (Raise RequestValidationError, w)
  ∧ http_status (post_races ObjectId_new b w).1 = 422%nat.
Proof.
  intros Hmissing.
  assert (RaceCreate_validate b = Raise RequestValidationError) as Hb.
  { unfold RaceCreate_validate.
    destruct Hmissing as [->|Hl]; [done|].
    destruct (b !! "map_code" ≫= json_str); [|done]. simpl.
    by destruct Hl as [->|[->|[l ->]]]. }
  by rewrite (post_races_invalid ObjectId_new b w _ Hb).
Qed.

Lemma post_races_required_fields_witness :
  post_races hex24_new {[ "map_code" := JStr "downtown_dash" ]} world_unconfigured
  = (Raise RequestValidationError, world_unconfigured)
  ∧ http_status
      (post_races hex24_new {[ "map_code" := JStr "downtown_dash" ]}
         world_unconfigured).1 = 422%nat.
Proof.
  apply (post_races_required_fields hex24_new
           {[ "map_code" := JStr "downtown_dash" ]} world_unconfigured).
  right. left. reflexivity.
Defined.

(** X10: [RaceCreate] reads its four fields and nothing else: a field of
    any other name, a status for instance, changes neither whether the
    body is accepted nor the instance built. *)
Theorem RaceCreate_ignores_other_fields (b : gmap string json)
    (k : string) (j : json) :
  k ≠ "map_code" → k ≠ "laps" → k ≠ "allowed_vehicle_codes" →
  k ≠ "created_by" →
  RaceCreate_validate (<[k := j]> b) = RaceCreate_validate b.
Proof.
  intros H1 H2 H3 H4. unfold RaceCreate_validate.
  by rewrite !lookup_insert_ne.
Qed.

Lemma RaceCreate_ignores_other_fields_witness :
  RaceCreate_validate (<["status" := JStr "finished"]> (body_laps 3))
  = RaceCreate_validate (body_laps 3).
Proof.
  by apply (RaceCreate_ignores_other_fields (body_laps 3) "status"
              (JStr "finished")).
Defined.

(** ** [list_races] *)

Lemma String_ltb_asym (x y : string) :
  String.ltb x y = true → String.ltb y x = false.
Proof.
  unfold String.ltb. rewrite (String.compare_antisym y x).
  by destruct (String.compare x y).
Qed.

Lemma strs_lt_asym (l1 l2 : list string) :
  strs_lt l1 l2 = true → strs_lt l2 l1 = false.
Proof.
  revert l2. induction l1 as [|x l1 IH]; intros [|y l2]; simpl; try done.
  rewrite (String.eqb_sym y x). destruct (String.eqb x y); [apply IH|].
  apply String_ltb_asym.
Qed.

Lemma bson_ltb_asym (a b : option value) :
  bson_ltb a b = true → bson_ltb b a = false.
Proof.
  destruct a as [[]|], b as [[]|]; simpl; try done;
    first [apply String_ltb_asym | apply strs_lt_asym | lia].
Qed.

#[global] Instance cursor_before_total field direction :
  Total (cursor_before field direction).
Proof.
  intros d1 d2. unfold cursor_before. destruct (direction <? 0)%Z.
  - destruct (bson_ltb (d1 !! field) (d2 !! field)) eqn:H; [|by left].
    right. by apply bson_ltb_asym.
  - destruct (bson_ltb (d2 !! field) (d1 !! field)) eqn:H; [|by left].
    right. by apply bson_ltb_asym.
Qed.

Lemma store_find_all (s : database) (name : string) :
  store_find s name ∅ = collection s name.
Proof.
  unfold store_find. induction (collection s name) as [|d l IH]; [done|].
  rewrite filter_cons_True, IH; [done|].
  unfold doc_matches. apply bool_decide_eq_true. apply map_Forall_empty.
Qed.

Lemma list_races_unconfigured (w : world) :
  db w = None →
  list_races w = (Raise (HTTPException 500 "Database not configured"), w).
Proof.
  intros Hdb. unfold list_races, mbind, handler_bind, require_db.
  by rewrite Hdb.
Qed.

Lemma list_races_configured (w : world) (s : database) :
  db w = Some s →
  list_races w
  = (Return (to_str_id <$> take 50 (cursor_sort "_id" (-1) (collection s "race"))),
     World (Some s) (issued w) (trace w ++ [OpFind "race" ∅])%list).
Proof.
  intros Hdb.
  unfold list_races, mbind, handler_bind, require_db, find_sort_limit,
    mret, handler_ret.
  rewrite Hdb. simpl. by rewrite Hdb, store_find_all.
Qed.

(** X11: with the store configured, [GET /races] returns, for at most 50
    of the stored races and for all of them when there are 50 or fewer,
    the race with [id] in the place of [_id]; no document returned holds
    [_id]. *)
Theorem list_races_at_most_50 (w : world) (s : database) :
  db w = Some s →
  ∃ races,
    (list_races w).1 = Return (to_str_id <$> races)
    ∧ races ⊆+ collection s "race"
    ∧ (length races = 50 `min` length (collection s "race"))%nat
    ∧ (length (collection s "race") ≤ 50 → races ≡ₚ collection s "race")%nat
    ∧ (∀ o : doc, o ∈ to_str_id <$> races → o !! "_id" = None).
Proof.
  intros Hdb. rewrite (list_races_configured w s Hdb). simpl.
  pose proof (merge_sort_Permutation (cursor_before "_id" (-1))
                (collection s "race")) as Hperm.
  fold (cursor_sort "_id" (-1) (collection s "race")) in Hperm.
  exists (take 50 (cursor_sort "_id" (-1) (collection s "race"))).
  split_and!.
  - done.
  - etrans; [apply sublist_submseteq, sublist_take|].
    by apply Permutation_submseteq.
  - by rewrite length_take, (Permutation_length Hperm).
  - intros Hle. rewrite take_ge; [done|]. by rewrite (Permutation_length Hperm).
  - intros o (d & -> & _)%list_elem_of_fmap. apply to_str_id_no_id.
Qed.

Lemma list_races_at_most_50_witness :
  ∃ races,
    (list_races (world_of (store_races 60))).1 = Return (to_str_id <$> races)
    ∧ races ⊆+ collection (store_races 60) "race"
    ∧ (length races = 50 `min` length (collection (store_races 60) "race"))%nat
    ∧ (length (collection (store_races 60) "race") ≤ 50 →
       races ≡ₚ collection (store_races 60) "race")%nat
    ∧ (∀ o : doc, o ∈ to_str_id <$> races → o !! "_id" = None).
Proof.
  apply (list_races_at_most_50 (world_of (store_races 60)) (store_races 60)).
  reflexivity.
Defined.

(** X12: the races returned are the first 50 of the stored races put in
    descending order of [_id]: followed by the races left out, they are
    the stored races in that order, and races are left out only when 50
    are returned. *)
Theorem list_races_newest_first (w : world) (s : database) :
  db w = Some s →
  ∃ races rest,
    (list_races w).1 = Return (to_str_id <$> races)
    ∧ (races ++ rest)%list ≡ₚ collection s "race"
    ∧ Sorted (cursor_before "_id" (-1)) (races ++ rest)%list
    ∧ (rest = [] ∨ length races = 50%nat).
Proof.
  intros Hdb. rewrite (list_races_configured w s Hdb). simpl.
  exists (take 50 (cursor_sort "_id" (-1) (collection s "race"))),
    (drop 50 (cursor_sort "_id" (-1) (collection s "race"))).
  rewrite take_drop. split_and!.
  - done.
  - apply merge_sort_Permutation.
  - apply (Sorted_merge_sort _).
  - destruct (decide (length (cursor_sort "_id" (-1) (collection s "race")) ≤ 50)%nat).
    + left. by apply drop_ge.
    + right. apply length_take_le. lia.
Qed.

Lemma list_races_newest_first_witness :
  ∃ races rest,
    (list_races (world_of (store_races 60))).1 = Return (to_str_id <$> races)
    ∧ (races ++ rest)%list ≡ₚ collection (store_races 60) "race"
    ∧ Sorted (cursor_before "_id" (-1)) (races ++ rest)%list
    ∧ (rest = [] ∨ length races = 50%nat).
Proof.
  apply (list_races_newest_first (world_of (store_races 60)) (store_races 60)).
  reflexivity.
Defined.

(** Of 60 stored races the 50 with the greatest identifiers are
    returned, the greatest first. *)
Example list_races_sixty :
  outcome_map (λ l : list doc, (λ d : doc, d !! "id") <$> l)
    (list_races (world_of (store_races 60))).1
  = Return ((λ n : nat, Some (VStr (hex24_new n))) <$> reverse (seq 10 50)).
Proof. vm_compute. reflexivity. Qed.

(** X13: [GET /races] leaves the stored documents as they were and makes
    at most the one read of the races; without a configured store it is
    answered 500 and reads nothing. *)
Theorem list_races_pure_read (w : world) :
  db (list_races w).2 = db w
  ∧ issued (list_races w).2 = issued w
  ∧ (db w = None →
     list_races w = (Raise (HTTPException 500 "Database not configured"), w))
  ∧ (is_Some (db w) →
     trace (list_races w).2 = (trace w ++ [OpFind "race" ∅])%list).
Proof.
  destruct (db w) as [s|] eqn:Hdb.
  - rewrite (list_races_configured w s Hdb). simpl. split_and!; done.
  - rewrite (list_races_unconfigured w Hdb). simpl. split_and!; done.
Qed.



(** ** More on the order of the leaderboard *)



(** In either order of storage the two keep the order in which they are
    retrieved. *)
Example leaderboard_placeholder_tie :
  (get_leaderboard hex24_ok race0 (world_of store_placeholder)).1
  = Return [shown 1 entry_D; shown 2 entry_P]
  ∧ (get_leaderboard hex24_ok race0 (world_of store_placeholder_rev)).1
    = Return [shown 1 entry_P; shown 2 entry_D].
Proof. split; vm_compute; reflexivity. Qed.

Lemma filter_fmap_same {A} (P : A → Prop) `{!∀ x, Decision (P x)}
    (g : A → A) (l : list A) :
  (∀ x, P (g x) ↔ P x) → filter P (g <$> l) = g <$> filter P l.
Proof.
  intros Hg. induction l as [|x l IH]; [done|]. csimpl.
  rewrite !filter_cons, IH.
  destruct (decide (P (g x))) as [Hgx|Hgx], (decide (P x)) as [Hx|Hx];
    try done.
  - destruct Hx. by apply Hg.
  - destruct Hgx. by apply Hg.
Qed.

Lemma shown_stored_position (p : Z) (v : value) (e : doc) :
  shown p (<["position" := v]> e) = shown p e.
Proof. unfold shown. by rewrite insert_insert_eq. Qed.

(** X16: a position stored in an entry plays no part: the call gives the
    same outcome, positions included, whatever position fields the stored
    entries carry. *)
Theorem leaderboard_ignores_stored_position (ObjectId_ok : string → bool)
    (w1 w2 : world) (s1 s2 : database) (race_id : string) (pos : doc → value) :
  db w1 = Some s1 → db w2 = Some s2 →
  collection s2 "entry"
  = (λ e : doc, <["position" := pos e]> e) <$> collection s1 "entry" →
  (get_leaderboard ObjectId_ok race_id w2).1
  = (get_leaderboard ObjectId_ok race_id w1).1.
Proof.
  intros H1 H2 Hpos. destruct (ObjectId_ok race_id) eqn:Hok.
  - rewrite (get_leaderboard_valid ObjectId_ok w1 s1 race_id H1 Hok),
      (get_leaderboard_valid ObjectId_ok w2 s2 race_id H2 Hok).
    simpl. rewrite !store_find_race_id, Hpos.
    rewrite filter_fmap_same by (intros e; by rewrite lookup_insert_ne).
    rewrite (list_sort_fmap sort_key sort_key tuple_lt).
    2:{ intros e. unfold sort_key, dict_get. by rewrite !lookup_insert_ne. }
    destruct (list_sort _ _ _) as [r|e]; simpl; [|done]. f_equal.
    rewrite !assign_positions_shown. apply list_eq. intros i.
    rewrite !list_lookup_imap, list_lookup_fmap.
    destruct (r !! i) as [e|]; simpl; [|done].
    by rewrite shown_stored_position.
  - by rewrite (get_leaderboard_invalid ObjectId_ok w1 s1 race_id H1 Hok),
      (get_leaderboard_invalid ObjectId_ok w2 s2 race_id H2 Hok).
Qed.

Lemma leaderboard_ignores_stored_position_witness :
  (get_leaderboard hex24_ok race0 (world_of store_scenario_positions)).1
  = (get_leaderboard hex24_ok race0 (world_of store_scenario)).1.
Proof.
  apply (leaderboard_ignores_stored_position hex24_ok
           (world_of store_scenario) (world_of store_scenario_positions)
           store_scenario store_scenario_positions race0 (λ _, VInt 9));
    reflexivity.
Defined.
